(** * scripts/dependency_version.py: the version synchroniser

    The script reads the manifest named by [sys.argv[1]], takes the first
    [version = "..."] declaration, rewrites every path dependency
    [name = { path = "...", version = "..." }] to carry that version and
    writes the text back over the file.

    A Python [str] is modelled as a [list ascii]: the patterns name
    ASCII characters only, so a character beyond them behaves as any
    other character outside the classes.  The two compiled patterns are
    modelled by a small backtracking matcher (greedy star, literal, [^]
    under [re.MULTILINE]) and [findall] / [re.sub] by the left-to-right
    scan for non-overlapping matches. *)

From Equations Require Import Equations.
From Stdlib Require Import String Ascii NArith Bool Arith Lia List.
Import ListNotations.

Local Open Scope list_scope.
Local Open Scope bool_scope.

(** ** Text *)

Definition text := list ascii.

Definition str (s : string) : text := list_ascii_of_string s.

Definition newline : ascii := "010"%char.
Definition dquote : ascii := "034"%char.

Definition is_newline (c : ascii) : bool := Ascii.eqb c newline.

(** ** Character classes of the two patterns *)

Definition in_range (lo hi c : ascii) : bool :=
  (N_of_ascii lo <=? N_of_ascii c)%N && (N_of_ascii c <=? N_of_ascii hi)%N.

(** [[a-zA-Z0-9_]] *)
Definition ident_class (c : ascii) : bool :=
  in_range "a" "z" c || in_range "A" "Z" c || in_range "0" "9" c
  || Ascii.eqb c "_".

(** [[./a-zA-Z0-9_]] *)
Definition path_class (c : ascii) : bool :=
  Ascii.eqb c "." || Ascii.eqb c "/"
  || in_range "a" "z" c || in_range "A" "Z" c || in_range "0" "9" c
  || Ascii.eqb c "_".

(** [[.a-zA-Z0-9_]] *)
Definition version_class (c : ascii) : bool :=
  Ascii.eqb c "."
  || in_range "a" "z" c || in_range "A" "Z" c || in_range "0" "9" c
  || Ascii.eqb c "_".

(** ** Regular-expression pieces, in continuation-passing style

    A piece takes the continuation that matches the rest of the pattern
    and the input at the current position.  [None] is a failed attempt,
    which makes the enclosing star give back one character and retry. *)

Section Pieces.
Context {R : Type}.

(** A literal run of characters. *)
Fixpoint lit (l : text) (k : text -> option R) (s : text) : option R :=
  match l with
  | [] => k s
  | c :: l' =>
      match s with
      | d :: s' => if Ascii.eqb c d then lit l' k s' else None
      | [] => None
      end
  end.

(** A captured group, a starred character class: greedy, longest run
    first, shorter runs on failure of the continuation. *)
Fixpoint star (cls : ascii -> bool) (k : text -> text -> option R)
         (s : text) : option R :=
  match s with
  | c :: s' =>
      if cls c then
        match star cls (fun grp => k (c :: grp)) s' with
        | Some r => Some r
        | None => k [] s
        end
      else k [] s
  | [] => k [] s
  end.

(** [^] under [re.MULTILINE]: the position is the start of the string
    ([prev = None]) or follows a newline. *)
Definition bol (prev : option ascii) (k : text -> option R) (s : text)
  : option R :=
  match prev with
  | None => k s
  | Some c => if is_newline c then k s else None
  end.
End Pieces.

(** ** The two patterns *)

(** Groups 1, 2 and 3 of a [dependencyPattern] match. *)
Record dep_groups := DepGroups {
  group1 : text;   (* identifier *)
  group2 : text;   (* path *)
  group3 : text    (* old version *)
}.

Definition dep_lit1 : text := str " = { path = " ++ [dquote].
Definition dep_lit2 : text := [dquote] ++ str ", version = " ++ [dquote].
Definition dep_lit3 : text := [dquote] ++ str " }".

Definition ver_lit1 : text := str "version = " ++ [dquote].
Definition ver_lit2 : text := [dquote].

(** The dependency pattern attempted at one position: [^], the starred
    identifier class, [dep_lit1], the starred path class, [dep_lit2], the
    starred version class, [dep_lit3].  The result holds the groups and the
    input left after the match. *)
Definition dependencyPattern (prev : option ascii) (s : text)
  : option (dep_groups * text) :=
  bol prev
    (star ident_class (fun g1 =>
     lit dep_lit1
    (star path_class (fun g2 =>
     lit dep_lit2
    (star version_class (fun g3 =>
     lit dep_lit3
    (fun rest => Some (DepGroups g1 g2 g3, rest)))))))) s.

(** The version pattern attempted at one position: [^], [ver_lit1], the
    starred version class, [ver_lit2]. *)
Definition versionPattern (prev : option ascii) (s : text)
  : option (text * text) :=
  bol prev
    (lit ver_lit1
    (star version_class (fun g1 =>
     lit ver_lit2
    (fun rest => Some (g1, rest))))) s.

(** ** The scan shared by [findall] and [re.sub]

    The engine walks the string from left to right.  Where the pattern
    matches, the match is recorded and the scan resumes at its end; where
    it does not, the character is passed over.  [prev] is the character
    before the current position, which is what [^] looks at.  A match of
    the empty string is recorded and the scan moves one character on;
    neither pattern of the script has such a match
    ([dependencyPattern_consumes], [versionPattern_consumes]). *)

Inductive piece (G : Type) : Type :=
| Unmatched (c : ascii)
| Matched (g : G).
Arguments Unmatched {G} c.
Arguments Matched {G} g.

Definition inspect {A : Type} (a : A) : {b : A | a = b} := exist _ a eq_refl.

(** The text a match consumed: the input up to where [rest] begins. *)
Definition consumed (s rest : text) : text :=
  firstn (length s - length rest) s.

(** The character before the position reached after passing over [t]. *)
Definition prev_after (prev : option ascii) (t : text) : option ascii :=
  fold_left (fun _ c => Some c) t prev.

Section Scan.
Context {G : Type}.
Variable pattern : option ascii -> text -> option (G * text).

Equations scan (prev : option ascii) (s : text) : list (piece G)
  by wf (length s) lt :=
scan prev s with inspect (pattern prev s) := {
  | exist _ (Some (g, rest)) _ with lt_dec (length rest) (length s) := {
      | left _ => Matched g :: scan (prev_after prev (consumed s rest)) rest
      | right _ with s := {
          | [] => [Matched g]
          | c :: s' => Matched g :: Unmatched c :: scan (Some c) s' } }
  | exist _ None _ with s := {
      | [] => []
      | c :: s' => Unmatched c :: scan (Some c) s' } }.
End Scan.

(** [pattern.findall(data)] for a pattern with one group: the group of
    every match, in order. *)
Definition findall {G : Type} (pattern : option ascii -> text -> option (G * text))
           (data : text) : list G :=
  flat_map (fun p => match p with Matched g => [g] | Unmatched _ => [] end)
           (scan pattern None data).

(** [re.sub(pattern, repl, data)] with a function [repl]: every match is
    replaced by what [repl] returns for it, the rest is kept. *)
Definition re_sub {G : Type} (pattern : option ascii -> text -> option (G * text))
           (repl : G -> text) (data : text) : text :=
  flat_map (fun p => match p with Matched g => repl g | Unmatched c => [c] end)
           (scan pattern None data).

(** ** The script's world: arguments, files, exceptions *)

Inductive exception : Type :=
| IndexError          (* a subclass of LookupError *)
| FileNotFoundError   (* a subclass of OSError, alias IOError *)
| PermissionError     (* a subclass of OSError *)
| OSError.            (* any other failure of the operating system *)

Definition is_LookupError (e : exception) : bool :=
  match e with
  | IndexError => true
  | FileNotFoundError | PermissionError | OSError => false
  end.

Definition is_OSError (e : exception) : bool :=
  match e with
  | FileNotFoundError | PermissionError | OSError => true
  | IndexError => false
  end.

(** The files hold text, as [read] returns it and [write] takes it; the
    encoding of text into bytes is not part of the model.  The operating
    system decides whether a file may be opened for writing
    ([write_denied]) and how many characters it accepts on it before a
    write fails ([write_room], [None] for no limit). *)
Record World := mkWorld {
  argv : list string;
  files : string -> option text;
  write_denied : string -> bool;
  write_room : string -> option nat
}.

Definition set_file (path : string) (content : text) (w : World) : World :=
  mkWorld (argv w)
          (fun p => if String.eqb p path then Some content else files w p)
          (write_denied w)
          (write_room w).

(** A statement runs in a world and either raises or returns a value; the
    world it leaves behind is kept in both cases. *)
Definition M (A : Type) : Type := World -> (exception + A) * World.

Definition ret {A : Type} (a : A) : M A := fun w => (inr a, w).

Definition raise {A : Type} (e : exception) : M A := fun w => (inl e, w).

Definition bind {A B : Type} (c : M A) (k : A -> M B) : M B :=
  fun w =>
    match c w with
    | (inl e, w') => (inl e, w')
    | (inr a, w') => k a w'
    end.

Notation "x <- c ;; k" := (bind c (fun x => k))
  (at level 61, c at next level, right associativity).

(** [l[i]] on a list. *)
Definition getitem {A : Type} (l : list A) (i : nat) : M A :=
  match nth_error l i with
  | Some a => ret a
  | None => raise IndexError
  end.

Definition sys_argv : M (list string) := fun w => (inr (argv w), w).

(** [open(path, "r")]: the file must exist; the handle is the path. *)
Definition open_r (path : string) : M string :=
  fun w =>
    match files w path with
    | Some _ => (inr path, w)
    | None => (inl FileNotFoundError, w)
    end.

(** [f.read()]: the whole text of the file. *)
Definition read (f : string) : M text :=
  fun w =>
    match files w f with
    | Some content => (inr content, w)
    | None => (inl FileNotFoundError, w)
    end.

(** [open(path, "w")]: creates or truncates the file, unless the
    operating system refuses, which leaves the file as it is. *)
Definition open_w (path : string) : M string :=
  fun w =>
    if write_denied w path then (inl PermissionError, w)
    else (inr path, set_file path [] w).

(** The characters of [s] that the operating system accepts on [f], and
    whether that is all of them. *)
Definition accepted (w : World) (f : string) (s : text) : text * bool :=
  match write_room w f with
  | Some room => if length s <=? room then (s, true) else (firstn room s, false)
  | None => (s, true)
  end.

(** [f.write(s)]: appends at the position of the handle, the end of what
    has been written through it, and returns the number of characters
    written; when the operating system stops accepting characters, what
    it accepted stays in the file and the write raises. *)
Definition write (f : string) (s : text) : M nat :=
  fun w =>
    match files w f with
    | Some content =>
        match accepted w f s with
        | (t, true) => (inr (length s), set_file f (content ++ t) w)
        | (t, false) => (inl OSError, set_file f (content ++ t) w)
        end
    | None => (inl FileNotFoundError, w)
    end.

(** ** The script *)

(** [def replace(match)], closed over the global [version]. *)
Definition replace (version : text) (m : dep_groups) : text :=
  group1 m ++ str " = { path = " ++ [dquote] ++ group2 m ++ [dquote]
  ++ str ", version = " ++ [dquote] ++ version ++ [dquote] ++ str " }".

Definition main : M unit :=
  args <- sys_argv ;;
  path <- getitem args 1 ;;
  f <- open_r path ;;
  data <- read f ;;
  version <- getitem (findall versionPattern data) 0 ;;
  let newData := re_sub dependencyPattern (replace version) data in
  args' <- sys_argv ;;
  path' <- getitem args' 1 ;;
  g <- open_w path' ;;
  _ <- write g newData ;;
  ret tt.

(** The part of [main] between [read] and [write]: from [data] to
    [newData], or the exception raised on the way. *)
Definition transform (data : text) : exception + text :=
  match nth_error (findall versionPattern data) 0 with
  | Some version => inr (re_sub dependencyPattern (replace version) data)
  | None => inl IndexError
  end.

(** ** The shapes of the two declarations, as the manifest writes them *)

Definition version_line (value : text) : text :=
  str "version = " ++ [dquote] ++ value ++ [dquote].

Definition dependency_line (ident path version : text) : text :=
  ident ++ str " = { path = " ++ [dquote] ++ path ++ [dquote]
  ++ str ", version = " ++ [dquote] ++ version ++ [dquote] ++ str " }".

(** ** Auxiliary notions for the matcher *)

(** The longest run of class characters at the head of [s], and what
    follows it. *)
Fixpoint span (cls : ascii -> bool) (s : text) : text * text :=
  match s with
  | c :: s' =>
      if cls c then let (a, b) := span cls s' in (c :: a, b) else ([], s)
  | [] => ([], [])
  end.

Definition stops (cls : ascii -> bool) (t : text) : Prop :=
  match t with
  | [] => True
  | c :: _ => cls c = false
  end.

(** The literal begins with a character outside the class. *)
Definition starts_outside (cls : ascii -> bool) (l : text) : bool :=
  match l with
  | c :: _ => negb (cls c)
  | [] => false
  end.

Definition dep_groups_ok (g : dep_groups) : bool :=
  forallb ident_class (group1 g) && forallb path_class (group2 g)
  && forallb version_class (group3 g).

(** The text of a [dependencyPattern] match with groups [g]. *)
Definition dep_body (g : dep_groups) : text :=
  dependency_line (group1 g) (group2 g) (group3 g).

(** ** Lines

    The lines of a text are what [^] under [re.MULTILINE] delimits: the
    runs between newline characters, the last one possibly empty. *)

Definition no_newline (l : text) : bool :=
  forallb (fun c => negb (is_newline c)) l.

Fixpoint split_lines (s : text) : list text :=
  match s with
  | [] => [[]]
  | c :: s' =>
      if is_newline c then [] :: split_lines s'
      else match split_lines s' with
           | l :: ls => (c :: l) :: ls
           | [] => [[c]]
           end
  end.

Fixpoint join_lines (ls : list text) : text :=
  match ls with
  | [] => []
  | l :: ls' =>
      match ls' with
      | [] => l
      | _ :: _ => l ++ newline :: join_lines ls'
      end
  end.

Section ByLine.
Context {G : Type}.
Variable pattern : option ascii -> text -> option (G * text).

(** What the scan yields on one line taken alone. *)
Definition line_pieces (l : text) : list (piece G) :=
  match pattern None l with
  | Some (g, r) => Matched g :: map Unmatched r
  | None => map Unmatched l
  end.

Fixpoint join_pieces (pss : list (list (piece G))) : list (piece G) :=
  match pss with
  | [] => []
  | ps :: pss' =>
      match pss' with
      | [] => ps
      | _ :: _ => ps ++ Unmatched newline :: join_pieces pss'
      end
  end.

(** The group of a line's match, if the line has one. *)
Definition line_group (l : text) : list G :=
  match pattern None l with
  | Some (g, _) => [g]
  | None => []
  end.

(** One line after substitution. *)
Definition sub_line (repl : G -> text) (l : text) : text :=
  match pattern None l with
  | Some (g, r) => repl g ++ r
  | None => l
  end.
End ByLine.

(** The position is the start of a line. *)
Definition at_bol (prev : option ascii) : Prop :=
  match prev with
  | None => True
  | Some c => is_newline c = true
  end.

(** ** Declarations in a manifest *)

(** The line begins with a version declaration of value [value]. *)
Definition version_decl (l value : text) : Prop :=
  forallb version_class value = true
  /\ exists tail, l = version_line value ++ tail.

(** The line begins with a path dependency declaration of these fields,
    followed by [tail]. *)
Definition dependency_decl_of (l ident path version tail : text) : Prop :=
  forallb ident_class ident = true
  /\ forallb path_class path = true
  /\ forallb version_class version = true
  /\ l = dependency_line ident path version ++ tail.

Definition dependency_decl (l : text) : Prop :=
  exists ident path version tail,
    dependency_decl_of l ident path version tail.

(** Line [i] is the first version declaration of [data] and has value
    [value]. *)
Definition first_version_decl_at (data : text) (i : nat) (value : text)
  : Prop :=
  (exists l, nth_error (split_lines data) i = Some l /\ version_decl l value)
  /\ forall j l x, j < i -> nth_error (split_lines data) j = Some l ->
                   ~ version_decl l x.

Definition first_version_decl (data value : text) : Prop :=
  exists i, first_version_decl_at data i value.

(** Line [i] is the only version declaration of [data] and has value
    [value]. *)
Definition only_version_decl_at (data : text) (i : nat) (value : text)
  : Prop :=
  (exists l, nth_error (split_lines data) i = Some l /\ version_decl l value)
  /\ forall j l x, j <> i -> nth_error (split_lines data) j = Some l ->
                   ~ version_decl l x.

Definition only_version_decl (data value : text) : Prop :=
  exists i, only_version_decl_at data i value.

(** Checks by evaluation that a line does not begin with a declaration. *)
Definition no_version_match (l : text) : bool :=
  match versionPattern None l with None => true | Some _ => false end.

Definition no_dependency_match (l : text) : bool :=
  match dependencyPattern None l with None => true | Some _ => false end.

(** ** Sample manifests *)

Definition manifest_of (ls : list text) : text := join_lines ls.

Definition sample_manifest : text :=
  manifest_of
    [ version_line (str "2.3.1");
      dependency_line (str "foo") (str "../foo") (str "2.3.0");
      dependency_line (str "bar") (str "./bar") (str "2.3.0") ++ str " # local";
      str "unrelated_line = true";
      [] ].

Definition sample_rewritten : text :=
  manifest_of
    [ version_line (str "2.3.1");
      dependency_line (str "foo") (str "../foo") (str "2.3.1");
      dependency_line (str "bar") (str "./bar") (str "2.3.1") ++ str " # local";
      str "unrelated_line = true";
      [] ].

(** A manifest without a version declaration. *)
Definition sample_unversioned : text :=
  manifest_of
    [ str "name = unreal";
      dependency_line (str "foo") (str "../foo") (str "2.3.0");
      [] ].

(** A manifest without a dependency declaration. *)
Definition sample_plain : text :=
  manifest_of
    [ str "[package]";
      version_line (str "0.1.0") ++ str " # release";
      str "edition = 2021" ].

(** A manifest whose version is the empty string. *)
Definition sample_empty_version : text :=
  manifest_of
    [ version_line [];
      dependency_line (str "foo") (str "../foo") (str "2.3.0") ].

Definition sample_world (path : string) (data : text) : World :=
  mkWorld ["dependency_version.py"%string; path]
          (fun p => if String.eqb p path then Some data else None)
          (fun _ => false)
          (fun _ => None).

(** The same world on a device with room for [room] characters only. *)
Definition sample_full_world (path : string) (data : text) (room : nat)
  : World :=
  mkWorld ["dependency_version.py"%string; path]
          (fun p => if String.eqb p path then Some data else None)
          (fun _ => false)
          (fun _ => Some room).

(** A manifest with a hyphenated name and a pre-release version. *)
Definition sample_hyphenated : text :=
  manifest_of
    [ version_line (str "1.0.0");
      dependency_line (str "unreal-asset") (str "../asset") (str "0.9.0");
      version_line (str "1.0.0-rc1") ].

(** A world started without a file argument. *)
Definition sample_bare_world : World :=
  mkWorld ["dependency_version.py"%string] (fun _ => None)
          (fun _ => false) (fun _ => None).

(** A world whose named file does not exist. *)
Definition sample_absent_world : World :=
  mkWorld ["dependency_version.py"%string; "Cargo.toml"%string]
          (fun _ => None) (fun _ => false) (fun _ => None).

(** * Properties *)

(** ** The matcher pieces *)

Lemma span_spec cls s :
  s = fst (span cls s) ++ snd (span cls s)
  /\ forallb cls (fst (span cls s)) = true
  /\ stops cls (snd (span cls s)).
Proof.
  induction s as [|c s IH]; simpl.
  - auto.
  - destruct (cls c) eqn:E.
    + destruct (span cls s) as [a b]. simpl in *.
      destruct IH as (Hs & Ha & Hb).
      split; [congruence|]. split; [|assumption]. rewrite E, Ha. reflexivity.
    + simpl. auto.
Qed.

Lemma span_app_stop cls g t :
  forallb cls g = true -> stops cls t -> span cls (g ++ t) = (g, t).
Proof.
  intros Hg Ht. induction g as [|c g IH]; simpl in *.
  - destruct t as [|c t]; [reflexivity|]. simpl. rewrite Ht. reflexivity.
  - apply andb_prop in Hg. destruct Hg as [Hc Hg].
    rewrite Hc, (IH Hg). reflexivity.
Qed.

Section PieceFacts.
Context {R : Type}.

Lemma lit_spec (l : text) (k : text -> option R) s r :
  lit l k s = Some r <-> exists t, s = l ++ t /\ k t = Some r.
Proof.
  revert s. induction l as [|c l IH]; intros s; simpl.
  - split; [eauto | intros (t & -> & H); exact H].
  - destruct s as [|d s].
    + split; [discriminate | intros (t & H & _); discriminate].
    + destruct (Ascii.eqb c d) eqn:E.
      * apply Ascii.eqb_eq in E. subst d. rewrite IH.
        split; intros (t & Hs & Hk); exists t; split; congruence.
      * split; [discriminate|]. intros (t & Hs & _).
        injection Hs as Hd _. subst d. rewrite Ascii.eqb_refl in E.
        discriminate.
Qed.

(** A continuation that fails on every character of the class makes the
    star keep its longest run: giving back a character cannot help. *)
Lemma star_greedy cls (k : text -> text -> option R) s :
  (forall g c t, cls c = true -> k g (c :: t) = None) ->
  star cls k s = k (fst (span cls s)) (snd (span cls s)).
Proof.
  revert k. induction s as [|c s IH]; intros k Hk; simpl.
  - reflexivity.
  - destruct (cls c) eqn:E; [|reflexivity].
    rewrite IH by (intros; apply Hk; assumption).
    destruct (span cls s) as [a b]. simpl.
    destruct (k (c :: a) b); [reflexivity|].
    apply Hk, E.
Qed.

Lemma star_lit_spec cls l (K : text -> text -> option R) s r :
  starts_outside cls l = true ->
  star cls (fun g => lit l (K g)) s = Some r <->
  exists g t, forallb cls g = true /\ s = g ++ l ++ t /\ K g t = Some r.
Proof.
  intros Hl. destruct l as [|c0 l]; [discriminate|].
  simpl in Hl. apply negb_true_iff in Hl.
  rewrite star_greedy.
  - destruct (span_spec cls s) as (Hs & Ha & Hb).
    rewrite lit_spec. split.
    + intros (t & Ht & HK). exists (fst (span cls s)), t.
      split; [assumption|]. split; [|assumption]. rewrite <- Ht. exact Hs.
    + intros (g & t & Hg & Hst & HK).
      rewrite Hst, span_app_stop by (simpl; auto). simpl. eauto.
  - intros g c t Hc. simpl. destruct (Ascii.eqb c0 c) eqn:E; [|reflexivity].
    apply Ascii.eqb_eq in E. congruence.
Qed.
End PieceFacts.

Lemma bol_None {R} (k : text -> option R) s : bol None k s = k s.
Proof. reflexivity. Qed.

(** ** What the two patterns match *)

Lemma dependency_line_lits ident path version :
  dependency_line ident path version
  = ident ++ dep_lit1 ++ path ++ dep_lit2 ++ version ++ dep_lit3.
Proof.
  unfold dependency_line, dep_lit1, dep_lit2, dep_lit3.
  repeat rewrite <- app_assoc. reflexivity.
Qed.

Lemma version_line_lits value :
  version_line value = ver_lit1 ++ value ++ ver_lit2.
Proof.
  unfold version_line, ver_lit1, ver_lit2.
  repeat rewrite <- app_assoc. reflexivity.
Qed.

Lemma dependencyPattern_spec s g rest :
  dependencyPattern None s = Some (g, rest) <->
  dep_groups_ok g = true /\ s = dep_body g ++ rest.
Proof.
  unfold dependencyPattern, dep_groups_ok, dep_body.
  rewrite bol_None, dependency_line_lits.
  rewrite star_lit_spec by reflexivity. split.
  - intros (g1 & t1 & H1 & -> & H).
    rewrite star_lit_spec in H by reflexivity.
    destruct H as (g2 & t2 & H2 & -> & H).
    rewrite star_lit_spec in H by reflexivity.
    destruct H as (g3 & t3 & H3 & -> & H).
    injection H as <- <-. cbn [group1 group2 group3].
    rewrite H1, H2, H3. split; [reflexivity|].
    repeat rewrite <- app_assoc. reflexivity.
  - intros (Hok & ->). destruct g as [g1 g2 g3]. cbn [group1 group2 group3] in *.
    apply andb_prop in Hok. destruct Hok as [Hok H3].
    apply andb_prop in Hok. destruct Hok as [H1 H2].
    exists g1, (g2 ++ dep_lit2 ++ g3 ++ dep_lit3 ++ rest).
    split; [assumption|]. split.
    { repeat rewrite <- app_assoc. reflexivity. }
    rewrite star_lit_spec by reflexivity.
    exists g2, (g3 ++ dep_lit3 ++ rest).
    split; [assumption|]. split; [reflexivity|].
    rewrite star_lit_spec by reflexivity.
    exists g3, rest. auto.
Qed.

Lemma versionPattern_spec s g rest :
  versionPattern None s = Some (g, rest) <->
  forallb version_class g = true /\ s = version_line g ++ rest.
Proof.
  unfold versionPattern. rewrite bol_None, lit_spec, version_line_lits.
  split.
  - intros (t & -> & H). rewrite star_lit_spec in H by reflexivity.
    destruct H as (g1 & t1 & H1 & -> & H). injection H as <- <-.
    split; [assumption|]. repeat rewrite <- app_assoc. reflexivity.
  - intros (Hg & ->). exists (g ++ ver_lit2 ++ rest). split.
    { repeat rewrite <- app_assoc. reflexivity. }
    rewrite star_lit_spec by reflexivity. exists g, rest. auto.
Qed.

(** ** Unfolding the scan *)

Section ScanFacts.
Context {G : Type} (pattern : option ascii -> text -> option (G * text)).

Lemma scan_None_nil prev :
  pattern prev [] = None -> scan pattern prev [] = [].
Proof.
  intros H. rewrite scan_equation_1.
  destruct (inspect (pattern prev [])) as [[[g rest]|] e];
    [congruence | reflexivity].
Qed.

Lemma scan_None_cons prev c s :
  pattern prev (c :: s) = None ->
  scan pattern prev (c :: s) = Unmatched c :: scan pattern (Some c) s.
Proof.
  intros H. rewrite scan_equation_1.
  destruct (inspect (pattern prev (c :: s))) as [[[g rest]|] e];
    [congruence | reflexivity].
Qed.

Lemma scan_Some prev s g rest :
  pattern prev s = Some (g, rest) ->
  length rest < length s ->
  scan pattern prev s
  = Matched g :: scan pattern (prev_after prev (consumed s rest)) rest.
Proof.
  intros H Hlt. rewrite scan_equation_1.
  destruct (inspect (pattern prev s)) as [[[g' rest']|] e]; [|congruence].
  pose proof (eq_trans (eq_sym e) H) as E. injection E as -> ->. simpl.
  destruct (lt_dec (length rest) (length s)) as [l|n]; [reflexivity|].
  contradiction.
Qed.
End ScanFacts.

(** ** Lines *)

Lemma split_lines_not_nil s : split_lines s <> [].
Proof.
  destruct s as [|c s]; simpl; [discriminate|].
  destruct (is_newline c); [discriminate|].
  destruct (split_lines s); discriminate.
Qed.

Lemma join_split_lines s : join_lines (split_lines s) = s.
Proof.
  induction s as [|c s IH]; [reflexivity|]. simpl.
  destruct (is_newline c) eqn:E.
  - apply Ascii.eqb_eq in E. subst c.
    pose proof (split_lines_not_nil s) as Hn.
    destruct (split_lines s) as [|l ls]; [contradiction|].
    cbn [join_lines app]. cbn [join_lines] in IH. rewrite IH. reflexivity.
  - pose proof (split_lines_not_nil s) as Hn.
    destruct (split_lines s) as [|l ls]; [contradiction|].
    cbn [join_lines] in *. destruct ls; simpl; rewrite <- IH; reflexivity.
Qed.

Lemma split_lines_no_newline s :
  Forall (fun l => no_newline l = true) (split_lines s).
Proof.
  induction s as [|c s IH]; simpl.
  - repeat constructor.
  - destruct (is_newline c) eqn:E.
    + constructor; [reflexivity | assumption].
    + destruct (split_lines s) as [|l ls].
      * repeat constructor. simpl. rewrite E. reflexivity.
      * inversion IH; subst. constructor; [|assumption].
        simpl. rewrite E. assumption.
Qed.

Lemma split_lines_app l t :
  no_newline l = true ->
  split_lines (l ++ newline :: t) = l :: split_lines t.
Proof.
  intros Hl. induction l as [|c l IH]; simpl in *.
  - reflexivity.
  - apply andb_prop in Hl. destruct Hl as [Hc Hl].
    apply negb_true_iff in Hc. rewrite Hc, (IH Hl). reflexivity.
Qed.

Lemma split_lines_one l : no_newline l = true -> split_lines l = [l].
Proof.
  intros Hl. induction l as [|c l IH]; simpl in *; [reflexivity|].
  apply andb_prop in Hl. destruct Hl as [Hc Hl].
  apply negb_true_iff in Hc. rewrite Hc, (IH Hl). reflexivity.
Qed.

Lemma split_join_lines ls :
  ls <> [] -> Forall (fun l => no_newline l = true) ls ->
  split_lines (join_lines ls) = ls.
Proof.
  intros Hn H. induction H as [|l ls Hl H IH]; [contradiction|].
  destruct ls as [|l2 ls].
  - apply split_lines_one, Hl.
  - cbn [join_lines]. rewrite split_lines_app by assumption.
    f_equal. apply IH. discriminate.
Qed.

Lemma no_newline_app a b :
  no_newline (a ++ b) = no_newline a && no_newline b.
Proof. apply forallb_app. Qed.

(** A text without newline that begins [l ++ newline :: t] lies within
    [l]. *)
Lemma line_prefix a l t rest :
  no_newline a = true -> no_newline l = true ->
  l ++ newline :: t = a ++ rest ->
  exists r, l = a ++ r /\ rest = r ++ newline :: t.
Proof.
  revert l. induction a as [|x a IH]; intros l Ha Hl H; simpl in *.
  - exists l. auto.
  - apply andb_prop in Ha. destruct Ha as [Hx Ha].
    destruct l as [|y l]; simpl in *.
    + injection H as Hx' _. subst x. discriminate.
    + injection H as -> H. apply andb_prop in Hl. destruct Hl as [_ Hl].
      destruct (IH l Ha Hl H) as (r & -> & ->). exists r. auto.
Qed.

(** ** The scan, line by line

    Both patterns are anchored by [^], match a text without newline that
    is not empty, and are characterised by that text.  Under these
    assumptions the scan of a text is the scan of its lines. *)

Lemma consumed_app (a r : text) : consumed (a ++ r) r = a.
Proof.
  unfold consumed. rewrite length_app.
  replace (length a + length r - length r) with (length a + 0) by lia.
  rewrite firstn_app_2. simpl. apply app_nil_r.
Qed.

Lemma prev_after_no_newline prev a :
  a <> [] -> no_newline a = true ->
  exists p, prev_after prev a = Some p /\ is_newline p = false.
Proof.
  revert prev. induction a as [|c a IH]; intros prev Hn Ha; [contradiction|].
  simpl in Ha. apply andb_prop in Ha. destruct Ha as [Hc Ha].
  destruct a as [|d a].
  - exists c. split; [reflexivity|]. apply negb_true_iff, Hc.
  - apply (IH (Some c)); [discriminate | assumption].
Qed.

Section ByLineFacts.
Context {G : Type}.
Variable pattern : option ascii -> text -> option (G * text).
Variable ok : G -> bool.
Variable body : G -> text.

Hypothesis pattern_spec : forall s g rest,
  pattern None s = Some (g, rest) <-> ok g = true /\ s = body g ++ rest.
Hypothesis pattern_prev : forall c s,
  pattern (Some c) s = if is_newline c then pattern None s else None.
Hypothesis body_not_nil : forall g, ok g = true -> body g <> [].
Hypothesis body_no_newline : forall g, ok g = true -> no_newline (body g) = true.

Lemma pattern_local l t :
  no_newline l = true ->
  pattern None (l ++ newline :: t)
  = match pattern None l with
    | Some (g, r) => Some (g, r ++ newline :: t)
    | None => None
    end.
Proof.
  intros Hl. destruct (pattern None l) as [[g r]|] eqn:E.
  - apply pattern_spec in E. destruct E as (Hok & ->).
    apply pattern_spec. split; [assumption|]. rewrite <- app_assoc. reflexivity.
  - destruct (pattern None (l ++ newline :: t)) as [[g rest]|] eqn:E';
      [|reflexivity].
    apply pattern_spec in E'. destruct E' as (Hok & H).
    destruct (line_prefix (body g) l t rest (body_no_newline g Hok) Hl H)
      as (r & -> & _).
    assert (pattern None (body g ++ r) = Some (g, r)) as E2
      by (apply pattern_spec; auto).
    congruence.
Qed.

Lemma pattern_consumes s g rest :
  pattern None s = Some (g, rest) -> length rest < length s.
Proof.
  intros H. apply pattern_spec in H. destruct H as (Hok & ->).
  specialize (body_not_nil g Hok). rewrite length_app.
  destruct (body g); [contradiction | simpl; lia].
Qed.

(** Wherever it is attempted, a match is not empty: the scan never takes
    its branch for empty matches. *)
Lemma pattern_consumes_at prev s g rest :
  pattern prev s = Some (g, rest) -> length rest < length s.
Proof.
  destruct prev as [c|]; [|apply pattern_consumes].
  rewrite pattern_prev. destruct (is_newline c); [|discriminate].
  apply pattern_consumes.
Qed.

(** Past the start of a line nothing matches up to the next newline. *)
Lemma scan_mid_line p l :
  is_newline p = false -> no_newline l = true ->
  scan pattern (Some p) l = map Unmatched l
  /\ forall t, scan pattern (Some p) (l ++ newline :: t)
               = map Unmatched l ++ Unmatched newline
                 :: scan pattern (Some newline) t.
Proof.
  revert p. induction l as [|c l IH]; intros p Hp Hl.
  - split.
    + apply scan_None_nil. rewrite pattern_prev, Hp. reflexivity.
    + intros t. simpl. apply scan_None_cons.
      rewrite pattern_prev, Hp. reflexivity.
  - simpl in Hl. apply andb_prop in Hl. destruct Hl as [Hc Hl].
    apply negb_true_iff in Hc.
    destruct (IH c Hc Hl) as [IH1 IH2]. split.
    + rewrite scan_None_cons by (rewrite pattern_prev, Hp; reflexivity).
      simpl. rewrite IH1. reflexivity.
    + intros t. simpl.
      rewrite scan_None_cons by (rewrite pattern_prev, Hp; reflexivity).
      rewrite IH2. reflexivity.
Qed.

Lemma pattern_at_bol prev s : at_bol prev -> pattern prev s = pattern None s.
Proof.
  destruct prev as [c|]; simpl; [|reflexivity].
  intros H. rewrite pattern_prev, H. reflexivity.
Qed.

(** At the start of a line the scan yields the pieces of that line and
    arrives at the start of the next one. *)
Lemma scan_line prev l :
  at_bol prev -> no_newline l = true ->
  scan pattern prev l = line_pieces pattern l
  /\ forall t, scan pattern prev (l ++ newline :: t)
               = line_pieces pattern l ++ Unmatched newline
                 :: scan pattern (Some newline) t.
Proof.
  intros Hb Hl. unfold line_pieces.
  destruct (pattern None l) as [[g r]|] eqn:E.
  - pose proof E as E0. apply pattern_spec in E0. destruct E0 as (Hok & ->).
    rewrite no_newline_app in Hl. apply andb_prop in Hl.
    destruct Hl as [Hbody Hr].
    destruct (prev_after_no_newline prev (body g) (body_not_nil g Hok) Hbody)
      as (p & Hp & Hpn).
    destruct (scan_mid_line p r Hpn Hr) as [M1 M2].
    split.
    + rewrite (scan_Some pattern prev _ g r).
      * rewrite consumed_app, Hp, M1. reflexivity.
      * rewrite pattern_at_bol by assumption. exact E.
      * apply pattern_consumes with g. exact E.
    + intros t.
      assert (pattern None ((body g ++ r) ++ newline :: t)
              = Some (g, r ++ newline :: t)) as E2.
      { rewrite pattern_local, E; [reflexivity|].
        rewrite no_newline_app, Hbody, Hr. reflexivity. }
      rewrite (scan_Some pattern prev _ g (r ++ newline :: t)).
      * rewrite <- app_assoc, consumed_app, Hp, M2. reflexivity.
      * rewrite pattern_at_bol by assumption. exact E2.
      * apply pattern_consumes with g. exact E2.
  - split.
    + destruct l as [|c l].
      * apply scan_None_nil. rewrite pattern_at_bol by assumption. exact E.
      * rewrite scan_None_cons
          by (rewrite pattern_at_bol by assumption; exact E).
        simpl in Hl. apply andb_prop in Hl. destruct Hl as [Hc Hl].
        apply negb_true_iff in Hc.
        destruct (scan_mid_line c l Hc Hl) as [M1 _].
        simpl. rewrite M1. reflexivity.
    + intros t.
      assert (pattern None (l ++ newline :: t) = None) as E2
        by (rewrite pattern_local, E; auto).
      destruct l as [|c l].
      * simpl. apply scan_None_cons.
        rewrite pattern_at_bol by assumption. exact E2.
      * simpl. rewrite scan_None_cons
          by (rewrite pattern_at_bol by assumption; exact E2).
        simpl in Hl. apply andb_prop in Hl. destruct Hl as [Hc Hl].
        apply negb_true_iff in Hc.
        destruct (scan_mid_line c l Hc Hl) as [_ M2].
        rewrite M2. reflexivity.
Qed.

Lemma scan_join_lines prev ls :
  at_bol prev -> Forall (fun l => no_newline l = true) ls ->
  ls <> [] ->
  scan pattern prev (join_lines ls)
  = join_pieces (map (line_pieces pattern) ls).
Proof.
  intros Hb H. revert prev Hb.
  induction H as [|l ls Hl H IH]; intros prev Hb Hn; [contradiction|].
  destruct ls as [|l2 ls].
  - simpl. apply scan_line; assumption.
  - cbn [join_lines map join_pieces].
    destruct (scan_line prev l Hb Hl) as [_ S2]. rewrite S2.
    rewrite IH; [reflexivity | reflexivity | discriminate].
Qed.

Lemma scan_by_lines data :
  scan pattern None data
  = join_pieces (map (line_pieces pattern) (split_lines data)).
Proof.
  rewrite <- (join_split_lines data) at 1.
  apply scan_join_lines.
  - exact I.
  - apply split_lines_no_newline.
  - apply split_lines_not_nil.
Qed.

Lemma join_pieces_cons (ps : list (piece G)) pss :
  pss <> [] ->
  join_pieces (ps :: pss) = ps ++ Unmatched newline :: join_pieces pss.
Proof. destruct pss; [contradiction | reflexivity]. Qed.

Lemma findall_by_lines data :
  findall pattern data = flat_map (line_group pattern) (split_lines data).
Proof.
  unfold findall. rewrite scan_by_lines.
  set (f := fun p : piece G =>
              match p with Matched g => [g] | Unmatched _ => [] end).
  assert (forall l, flat_map f (line_pieces pattern l) = line_group pattern l)
    as Hl.
  { intros l. unfold line_pieces, line_group.
    destruct (pattern None l) as [[g r]|].
    - simpl. f_equal. induction r; simpl; auto.
    - induction l; simpl; auto. }
  induction (split_lines data) as [|l ls IH]; [reflexivity|].
  destruct ls as [|l2 ls].
  - simpl. rewrite app_nil_r. apply Hl.
  - change (map (line_pieces pattern) (l :: l2 :: ls))
      with (line_pieces pattern l :: map (line_pieces pattern) (l2 :: ls)).
    rewrite join_pieces_cons by discriminate.
    rewrite flat_map_app. change (flat_map f (?x :: ?t)) with (f x ++ flat_map f t).
    rewrite IH, Hl. reflexivity.
Qed.

Lemma re_sub_by_lines repl data :
  re_sub pattern repl data
  = join_lines (map (sub_line pattern repl) (split_lines data)).
Proof.
  unfold re_sub. rewrite scan_by_lines.
  set (f := fun p : piece G =>
              match p with Matched g => repl g | Unmatched c => [c] end).
  assert (forall t : text, flat_map f (map Unmatched t) = t) as Hu.
  { induction t as [|c t IHt]; simpl; [|rewrite IHt]; reflexivity. }
  assert (forall l, flat_map f (line_pieces pattern l)
                    = sub_line pattern repl l) as Hl.
  { intros l. unfold line_pieces, sub_line.
    destruct (pattern None l) as [[g r]|].
    - cbn [flat_map]. rewrite Hu. reflexivity.
    - apply Hu. }
  induction (split_lines data) as [|l ls IH]; [reflexivity|].
  destruct ls as [|l2 ls].
  - simpl. apply Hl.
  - change (map (line_pieces pattern) (l :: l2 :: ls))
      with (line_pieces pattern l :: map (line_pieces pattern) (l2 :: ls)).
    rewrite join_pieces_cons by discriminate.
    rewrite flat_map_app. change (flat_map f (?x :: ?t)) with (f x ++ flat_map f t).
    rewrite IH, Hl. reflexivity.
Qed.

(** A replacement without newline keeps the lines apart. *)
Lemma split_lines_re_sub repl data :
  (forall g, ok g = true -> no_newline (repl g) = true) ->
  split_lines (re_sub pattern repl data)
  = map (sub_line pattern repl) (split_lines data).
Proof.
  intros Hrepl. rewrite re_sub_by_lines. apply split_join_lines.
  - pose proof (split_lines_not_nil data).
    destruct (split_lines data); [contradiction | discriminate].
  - pose proof (split_lines_no_newline data) as H.
    induction H as [|l ls Hl H IH]; simpl; constructor; [|assumption].
    unfold sub_line. destruct (pattern None l) as [[g r]|] eqn:E;
      [|assumption].
    apply pattern_spec in E. destruct E as (Hok & ->).
    rewrite no_newline_app in *. apply andb_prop in Hl.
    destruct Hl as [_ Hr]. rewrite (Hrepl g Hok), Hr. reflexivity.
Qed.
End ByLineFacts.

(** ** The two patterns, line by line *)

Lemma ident_class_not_newline c : ident_class c = true -> is_newline c = false.
Proof.
  intros H. destruct (is_newline c) eqn:E; [|reflexivity].
  apply Ascii.eqb_eq in E. subst c. discriminate.
Qed.

Lemma path_class_not_newline c : path_class c = true -> is_newline c = false.
Proof.
  intros H. destruct (is_newline c) eqn:E; [|reflexivity].
  apply Ascii.eqb_eq in E. subst c. discriminate.
Qed.

Lemma version_class_not_newline c :
  version_class c = true -> is_newline c = false.
Proof.
  intros H. destruct (is_newline c) eqn:E; [|reflexivity].
  apply Ascii.eqb_eq in E. subst c. discriminate.
Qed.

Lemma class_no_newline (cls : ascii -> bool) g :
  (forall c, cls c = true -> is_newline c = false) ->
  forallb cls g = true -> no_newline g = true.
Proof.
  intros Hc. induction g as [|c g IH]; simpl; [reflexivity|].
  intros H. apply andb_prop in H. destruct H as [H1 H2].
  rewrite (Hc c H1), (IH H2). reflexivity.
Qed.

Lemma dependency_line_no_newline ident path version :
  forallb ident_class ident = true -> forallb path_class path = true ->
  no_newline version = true ->
  no_newline (dependency_line ident path version) = true.
Proof.
  intros Hi Hp Hv. rewrite dependency_line_lits.
  repeat rewrite no_newline_app.
  rewrite (class_no_newline _ _ ident_class_not_newline Hi).
  rewrite (class_no_newline _ _ path_class_not_newline Hp).
  rewrite Hv. reflexivity.
Qed.

Lemma dependency_line_not_nil ident path version :
  dependency_line ident path version <> [].
Proof.
  rewrite dependency_line_lits. intros H.
  apply (f_equal (@length ascii)) in H.
  repeat rewrite length_app in H. simpl in H. lia.
Qed.

Lemma dep_groups_ok_inv g :
  dep_groups_ok g = true ->
  forallb ident_class (group1 g) = true
  /\ forallb path_class (group2 g) = true
  /\ forallb version_class (group3 g) = true.
Proof.
  unfold dep_groups_ok. intros H.
  apply andb_prop in H. destruct H as [H H3].
  apply andb_prop in H. destruct H as [H1 H2]. auto.
Qed.

Lemma dependencyPattern_prev c s :
  dependencyPattern (Some c) s
  = if is_newline c then dependencyPattern None s else None.
Proof. reflexivity. Qed.

Lemma versionPattern_prev c s :
  versionPattern (Some c) s
  = if is_newline c then versionPattern None s else None.
Proof. reflexivity. Qed.

Lemma dep_body_not_nil g : dep_groups_ok g = true -> dep_body g <> [].
Proof. intros _. apply dependency_line_not_nil. Qed.

Lemma dep_body_no_newline g :
  dep_groups_ok g = true -> no_newline (dep_body g) = true.
Proof.
  intros H. apply dep_groups_ok_inv in H. destruct H as (H1 & H2 & H3).
  apply dependency_line_no_newline; try assumption.
  apply (class_no_newline _ _ version_class_not_newline H3).
Qed.

Lemma version_line_not_nil g :
  forallb version_class g = true -> version_line g <> [].
Proof. intros _. discriminate. Qed.

Lemma version_line_no_newline g :
  forallb version_class g = true -> no_newline (version_line g) = true.
Proof.
  intros H. rewrite version_line_lits. repeat rewrite no_newline_app.
  rewrite (class_no_newline _ _ version_class_not_newline H). reflexivity.
Qed.

Lemma findall_version_by_lines data :
  findall versionPattern data
  = flat_map (line_group versionPattern) (split_lines data).
Proof.
  apply (findall_by_lines versionPattern (forallb version_class) version_line
           versionPattern_spec versionPattern_prev
           version_line_not_nil version_line_no_newline).
Qed.

Lemma replace_dependency_line v g :
  replace v g = dependency_line (group1 g) (group2 g) v.
Proof. reflexivity. Qed.

Lemma split_lines_sub_dependency v data :
  no_newline v = true ->
  split_lines (re_sub dependencyPattern (replace v) data)
  = map (sub_line dependencyPattern (replace v)) (split_lines data).
Proof.
  intros Hv.
  apply (split_lines_re_sub dependencyPattern dep_groups_ok dep_body
           dependencyPattern_spec dependencyPattern_prev
           dep_body_not_nil dep_body_no_newline).
  intros g Hg. apply dep_groups_ok_inv in Hg. destruct Hg as (H1 & H2 & _).
  rewrite replace_dependency_line.
  apply dependency_line_no_newline; assumption.
Qed.

Lemma sub_dependency_by_lines v data :
  re_sub dependencyPattern (replace v) data
  = join_lines (map (sub_line dependencyPattern (replace v))
                    (split_lines data)).
Proof.
  apply (re_sub_by_lines dependencyPattern dep_groups_ok dep_body
           dependencyPattern_spec dependencyPattern_prev
           dep_body_not_nil dep_body_no_newline).
Qed.

Lemma dependencyPattern_consumes prev s g rest :
  dependencyPattern prev s = Some (g, rest) -> length rest < length s.
Proof.
  apply (pattern_consumes_at dependencyPattern dep_groups_ok dep_body
           dependencyPattern_spec dependencyPattern_prev dep_body_not_nil).
Qed.

Lemma versionPattern_consumes prev s g rest :
  versionPattern prev s = Some (g, rest) -> length rest < length s.
Proof.
  apply (pattern_consumes_at versionPattern (forallb version_class)
           version_line versionPattern_spec versionPattern_prev
           version_line_not_nil).
Qed.

(** ** Declarations and matches *)

Lemma version_decl_match l v :
  version_decl l v <-> exists r, versionPattern None l = Some (v, r).
Proof.
  unfold version_decl. split.
  - intros (Hv & r & ->). exists r. apply versionPattern_spec. auto.
  - intros (r & H). apply versionPattern_spec in H. destruct H as (Hv & ->).
    eauto.
Qed.

Lemma dependency_decl_of_match l ident path version tail :
  dependency_decl_of l ident path version tail <->
  dependencyPattern None l = Some (DepGroups ident path version, tail).
Proof.
  rewrite dependencyPattern_spec. unfold dependency_decl_of, dep_groups_ok, dep_body.
  cbn [group1 group2 group3]. split.
  - intros (H1 & H2 & H3 & ->). rewrite H1, H2, H3. auto.
  - intros (H & ->). apply andb_prop in H. destruct H as [H H3].
    apply andb_prop in H. destruct H as [H1 H2]. auto.
Qed.

Lemma dependency_decl_match l :
  dependency_decl l <-> exists g r, dependencyPattern None l = Some (g, r).
Proof.
  split.
  - intros (i & p & v & t & H). apply dependency_decl_of_match in H. eauto.
  - intros ([i p v] & r & H). exists i, p, v, r.
    apply dependency_decl_of_match, H.
Qed.

(** No line is both: after the equals sign one has a brace, the other a
    quote. *)
Lemma dependency_not_version l g r :
  dependencyPattern None l = Some (g, r) -> versionPattern None l = None.
Proof.
  intros H. destruct (versionPattern None l) as [[v t]|] eqn:E;
    [|reflexivity].
  exfalso. apply dependencyPattern_spec in H. destruct H as (Hok & Hl).
  apply versionPattern_spec in E. destruct E as (Hv & Hl').
  apply dep_groups_ok_inv in Hok. destruct Hok as (H1 & _ & _).
  unfold dep_body in Hl. rewrite dependency_line_lits in Hl.
  rewrite <- app_assoc in Hl.
  assert (span ident_class l
          = (group1 g, dep_lit1 ++ (group2 g ++ dep_lit2 ++ group3 g ++ dep_lit3) ++ r))
    as S1.
  { rewrite Hl. rewrite <- app_assoc. apply span_app_stop; [assumption|].
    reflexivity. }
  assert (span ident_class l
          = (str "version", str " = " ++ [dquote] ++ v ++ [dquote] ++ t))
    as S2.
  { rewrite Hl'. unfold version_line.
    change (str "version = ") with (str "version" ++ str " = ").
    repeat rewrite <- app_assoc.
    apply span_app_stop; reflexivity. }
  rewrite S1 in S2. injection S2 as _ S2. discriminate.
Qed.

(** ** The canonical version *)

Lemma flat_map_head {A B : Type} (f : A -> list B) ls i l b bs :
  nth_error ls i = Some l -> f l = b :: bs ->
  (forall j x, j < i -> nth_error ls j = Some x -> f x = []) ->
  nth_error (flat_map f ls) 0 = Some b.
Proof.
  revert i. induction ls as [|a ls IH]; intros i Hi Hl Hbefore.
  - destruct i; discriminate.
  - destruct i as [|i]; simpl in *.
    + injection Hi as ->. rewrite Hl. reflexivity.
    + rewrite (Hbefore 0 a) by (simpl; auto; lia). simpl.
      apply (IH i); [assumption | assumption |].
      intros j x Hj Hx. apply (Hbefore (S j) x); [lia | exact Hx].
Qed.

Lemma flat_map_head_inv {A B : Type} (f : A -> list B) ls b :
  nth_error (flat_map f ls) 0 = Some b ->
  exists i l bs, nth_error ls i = Some l /\ f l = b :: bs
    /\ forall j x, j < i -> nth_error ls j = Some x -> f x = [].
Proof.
  induction ls as [|a ls IH]; simpl; [discriminate|].
  destruct (f a) as [|b' bs] eqn:E; simpl.
  - intros H. destruct (IH H) as (i & l & bs & Hi & Hl & Hbefore).
    exists (S i), l, bs. split; [exact Hi|]. split; [exact Hl|].
    intros [|j] x Hj Hx; simpl in Hx.
    + injection Hx as <-. exact E.
    + apply (Hbefore j x); [lia | exact Hx].
  - intros H. injection H as ->. exists 0, a, bs.
    split; [reflexivity|]. split; [exact E|]. intros j x Hj. lia.
Qed.

Lemma line_group_version_decl l v :
  version_decl l v <-> exists bs, line_group versionPattern l = v :: bs.
Proof.
  rewrite version_decl_match. unfold line_group. split.
  - intros (r & ->). eauto.
  - intros (bs & H). destruct (versionPattern None l) as [[g r]|];
      [|discriminate].
    injection H as -> _. eauto.
Qed.

Lemma line_group_no_version_decl l :
  (forall x, ~ version_decl l x) -> line_group versionPattern l = [].
Proof.
  intros H. destruct (line_group versionPattern l) as [|v bs] eqn:E;
    [reflexivity|].
  exfalso. apply (H v), line_group_version_decl. eauto.
Qed.

Lemma first_version_decl_findall data v :
  first_version_decl data v <->
  nth_error (findall versionPattern data) 0 = Some v.
Proof.
  rewrite findall_version_by_lines. split.
  - intros (i & (l & Hi & Hl) & Hbefore).
    apply line_group_version_decl in Hl. destruct Hl as (bs & Hl).
    apply (flat_map_head _ _ i l v bs); [assumption | assumption |].
    intros j x Hj Hx. apply line_group_no_version_decl.
    intros y. apply (Hbefore j x y); assumption.
  - intros H. apply flat_map_head_inv in H.
    destruct H as (i & l & bs & Hi & Hl & Hbefore).
    exists i. split.
    + exists l. split; [assumption|]. apply line_group_version_decl. eauto.
    + intros j x y Hj Hx Hy. apply line_group_version_decl in Hy.
      destruct Hy as (bs' & Hy). rewrite (Hbefore j x Hj Hx) in Hy.
      discriminate.
Qed.

Lemma only_version_decl_first data v :
  only_version_decl data v -> first_version_decl data v.
Proof.
  intros (i & Hi & Hother). exists i. split; [exact Hi|].
  intros j l x Hj. apply Hother. lia.
Qed.

Lemma version_decl_class l v :
  version_decl l v -> forallb version_class v = true.
Proof. intros [H _]. exact H. Qed.

Lemma first_version_decl_class data v :
  first_version_decl data v -> forallb version_class v = true.
Proof.
  intros (i & (l & _ & Hl) & _). apply (version_decl_class l v Hl).
Qed.

Lemma some_version_decl_first data i l x :
  nth_error (split_lines data) i = Some l -> version_decl l x ->
  exists v, first_version_decl data v.
Proof.
  intros Hi Hl.
  destruct (nth_error (findall versionPattern data) 0) as [v|] eqn:E.
  - exists v. apply first_version_decl_findall, E.
  - exfalso. rewrite findall_version_by_lines in E.
    apply nth_error_None in E. simpl in E.
    assert (flat_map (line_group versionPattern) (split_lines data) = [])
      as E0 by (destruct (flat_map _ _); [reflexivity | simpl in E; lia]).
    apply line_group_version_decl in Hl. destruct Hl as (bs & Hl).
    assert (In x (flat_map (line_group versionPattern) (split_lines data)))
      as Hin.
    { apply in_flat_map. exists l. split.
      - apply nth_error_In with i. exact Hi.
      - rewrite Hl. left. reflexivity. }
    rewrite E0 in Hin. contradiction.
Qed.

(** ** The transform, line by line *)

Lemma transform_first_version data v :
  first_version_decl data v ->
  transform data = inr (re_sub dependencyPattern (replace v) data).
Proof.
  intros H. apply first_version_decl_findall in H.
  unfold transform. rewrite H. reflexivity.
Qed.

Lemma transform_inr data out :
  transform data = inr out ->
  exists v, first_version_decl data v
            /\ out = re_sub dependencyPattern (replace v) data.
Proof.
  unfold transform.
  destruct (nth_error (findall versionPattern data) 0) as [v|] eqn:E;
    [|discriminate].
  intros H. injection H as <-. exists v. split; [|reflexivity].
  apply first_version_decl_findall, E.
Qed.

Lemma transform_lines data v :
  first_version_decl data v ->
  split_lines (re_sub dependencyPattern (replace v) data)
  = map (sub_line dependencyPattern (replace v)) (split_lines data).
Proof.
  intros H. apply split_lines_sub_dependency.
  apply (class_no_newline _ _ version_class_not_newline).
  apply (first_version_decl_class data v H).
Qed.

Lemma sub_line_dependency v l ident path old tail :
  dependency_decl_of l ident path old tail ->
  sub_line dependencyPattern (replace v) l
  = dependency_line ident path v ++ tail.
Proof.
  intros H. apply dependency_decl_of_match in H.
  unfold sub_line. rewrite H. reflexivity.
Qed.

Lemma sub_line_other v l :
  ~ dependency_decl l -> sub_line dependencyPattern (replace v) l = l.
Proof.
  intros H. unfold sub_line.
  destruct (dependencyPattern None l) as [[g r]|] eqn:E; [|reflexivity].
  exfalso. apply H, dependency_decl_match. eauto.
Qed.

Lemma sub_line_result v l :
  forallb version_class v = true ->
  sub_line dependencyPattern (replace v) l = l /\ ~ dependency_decl l
  \/ exists ident path old tail,
       dependency_decl_of l ident path old tail
       /\ sub_line dependencyPattern (replace v) l
          = dependency_line ident path v ++ tail
       /\ dependency_decl_of (dependency_line ident path v ++ tail)
            ident path v tail.
Proof.
  intros Hv. unfold sub_line.
  destruct (dependencyPattern None l) as [[[i p o] r]|] eqn:E.
  - right. exists i, p, o, r. apply dependency_decl_of_match in E.
    split; [exact E|]. split; [reflexivity|].
    destruct E as (H1 & H2 & _ & _). repeat split; assumption.
  - left. split; [reflexivity|]. intros H. apply dependency_decl_match in H.
    destruct H as (g & r & H). congruence.
Qed.

(** The version pattern finds in the rewritten text what it finds in the
    text. *)
Lemma findall_version_sub data v :
  first_version_decl data v ->
  findall versionPattern (re_sub dependencyPattern (replace v) data)
  = findall versionPattern data.
Proof.
  intros Hv.
  pose proof (first_version_decl_class data v Hv) as Hc.
  rewrite !findall_version_by_lines, (transform_lines data v Hv),
    flat_map_concat_map, map_map, <- flat_map_concat_map.
  apply flat_map_ext. intros l.
  destruct (sub_line_result v l Hc) as [[-> _]|(i & p & o & t & H1 & -> & H2)];
    [reflexivity|].
  apply dependency_decl_of_match in H1, H2. unfold line_group.
  rewrite (dependency_not_version _ _ _ H1),
    (dependency_not_version _ _ _ H2). reflexivity.
Qed.

(** ** The transform *)

(** C1. Every line that begins with a dependency declaration comes out
    as a dependency declaration with the same identifier and the same
    path, whose version is the value of the first version declaration of
    the text; the old version is gone, what followed the declaration on
    the line stays. *)
Theorem dependency_fields_preserved data v i l ident path old tail :
  first_version_decl data v ->
  nth_error (split_lines data) i = Some l ->
  dependency_decl_of l ident path old tail ->
  exists out l',
    transform data = inr out
    /\ nth_error (split_lines out) i = Some l'
    /\ dependency_decl_of l' ident path v tail.
Proof.
  intros Hv Hi Hl.
  exists (re_sub dependencyPattern (replace v) data),
         (dependency_line ident path v ++ tail).
  split; [apply transform_first_version, Hv|]. split.
  - rewrite (transform_lines data v Hv), nth_error_map, Hi. simpl.
    rewrite (sub_line_dependency v l ident path old tail Hl). reflexivity.
  - destruct Hl as (H1 & H2 & _ & _).
    pose proof (first_version_decl_class data v Hv).
    repeat split; assumption.
Qed.

(** C2. Running the transform on its own output changes nothing. *)
Theorem transform_idempotent data out :
  transform data = inr out -> transform out = inr out.
Proof.
  intros H. apply transform_inr in H. destruct H as (v & Hv & ->).
  pose proof (first_version_decl_class data v Hv) as Hc.
  pose proof (transform_lines data v Hv) as Hlines.
  pose proof (findall_version_sub data v Hv) as Hf.
  unfold transform. rewrite Hf.
  apply first_version_decl_findall in Hv. rewrite Hv. f_equal.
  rewrite (sub_dependency_by_lines v (re_sub _ _ _)), Hlines, map_map.
  rewrite (sub_dependency_by_lines v data). f_equal.
  apply map_ext. intros l.
  destruct (sub_line_result v l Hc) as [[E _]|(i & p & o & t & _ & -> & H2)].
  - rewrite E, E. reflexivity.
  - apply (sub_line_dependency v _ i p v t H2).
Qed.

(** C3. The version used for rewriting is the value captured on the
    first line that begins with a version declaration; when exactly one
    line does, it is the value of that line. *)
Theorem canonical_version_first data X :
  (first_version_decl data X ->
   nth_error (findall versionPattern data) 0 = Some X
   /\ transform data = inr (re_sub dependencyPattern (replace X) data))
  /\ (only_version_decl data X ->
      nth_error (findall versionPattern data) 0 = Some X
      /\ transform data = inr (re_sub dependencyPattern (replace X) data)).
Proof.
  assert (first_version_decl data X ->
          nth_error (findall versionPattern data) 0 = Some X
          /\ transform data = inr (re_sub dependencyPattern (replace X) data))
    as H.
  { intros H. split.
    - apply first_version_decl_findall, H.
    - apply transform_first_version, H. }
  split; [exact H|]. intros Ho. apply H, only_version_decl_first, Ho.
Qed.

(** C4. A line that does not begin with a dependency declaration is the
    same line, character for character, in the output, and the output
    has as many lines as the input. *)
Theorem other_lines_untouched data out i l :
  transform data = inr out ->
  nth_error (split_lines data) i = Some l ->
  ~ dependency_decl l ->
  length (split_lines out) = length (split_lines data)
  /\ nth_error (split_lines out) i = Some l.
Proof.
  intros H Hi Hl. apply transform_inr in H. destruct H as (v & Hv & ->).
  rewrite (transform_lines data v Hv). split.
  - apply length_map.
  - rewrite nth_error_map, Hi. simpl. rewrite (sub_line_other v l Hl).
    reflexivity.
Qed.

(** C6. On a text with a version declaration and no dependency
    declaration the transform returns the text itself. *)
Theorem no_dependency_identity data i l x :
  nth_error (split_lines data) i = Some l -> version_decl l x ->
  (forall j l', nth_error (split_lines data) j = Some l' ->
                ~ dependency_decl l') ->
  transform data = inr data.
Proof.
  intros Hi Hl Hnone.
  destruct (some_version_decl_first data i l x Hi Hl) as (v & Hv).
  rewrite (transform_first_version data v Hv). f_equal.
  rewrite sub_dependency_by_lines.
  rewrite <- (join_split_lines data) at 2. f_equal.
  rewrite <- (map_id (split_lines data)) at 2.
  apply map_ext_in. intros l' Hin.
  apply In_nth_error in Hin. destruct Hin as (j & Hj).
  apply sub_line_other, (Hnone j l' Hj).
Qed.

(** C8. On a line that goes on after the closing brace of a dependency
    declaration, only the declaration is rewritten, to the canonical
    version; the characters after the brace are kept as they are. *)
Theorem trailing_characters_kept data v i ident path old tail :
  first_version_decl data v ->
  tail <> [] ->
  forallb ident_class ident = true ->
  forallb path_class path = true ->
  forallb version_class old = true ->
  nth_error (split_lines data) i
  = Some (dependency_line ident path old ++ tail) ->
  exists out,
    transform data = inr out
    /\ nth_error (split_lines out) i
       = Some (dependency_line ident path v ++ tail).
Proof.
  intros Hv _ H1 H2 H3 Hi.
  exists (re_sub dependencyPattern (replace v) data).
  split; [apply transform_first_version, Hv|].
  rewrite (transform_lines data v Hv), nth_error_map, Hi. simpl.
  f_equal. apply (sub_line_dependency v _ ident path old tail).
  repeat split; assumption.
Qed.

(** C9. The rewrite leaves the version declarations alone: a line that
    begins with one is the same line in the output, a line of the output
    that begins with one was that line in the input, and the values found
    by the version pattern, hence the first of them, are the same before
    and after. *)
Theorem version_declarations_invariant data out :
  transform data = inr out ->
  (forall i l x, nth_error (split_lines data) i = Some l ->
                 version_decl l x ->
                 nth_error (split_lines out) i = Some l)
  /\ (forall i l x, nth_error (split_lines out) i = Some l ->
                    version_decl l x ->
                    nth_error (split_lines data) i = Some l)
  /\ findall versionPattern out = findall versionPattern data
  /\ (forall v, first_version_decl out v <-> first_version_decl data v).
Proof.
  intros H. apply transform_inr in H. destruct H as (v & Hv & ->).
  pose proof (first_version_decl_class data v Hv) as Hc.
  pose proof (transform_lines data v Hv) as Hlines.
  assert (forall l x, version_decl l x -> ~ dependency_decl l) as Hexcl.
  { intros l x Hx Hd. apply version_decl_match in Hx. destruct Hx as (r & Hx).
    apply dependency_decl_match in Hd. destruct Hd as (g & r' & Hd).
    rewrite (dependency_not_version _ _ _ Hd) in Hx. discriminate. }
  pose proof (findall_version_sub data v Hv) as Hf.
  split; [|split; [|split]].
  - intros i l x Hi Hx. rewrite Hlines, nth_error_map, Hi. simpl.
    rewrite (sub_line_other v l (Hexcl l x Hx)). reflexivity.
  - intros i l x Hi Hx. rewrite Hlines, nth_error_map in Hi.
    destruct (nth_error (split_lines data) i) as [l0|]; [|discriminate].
    simpl in Hi. injection Hi as Hi. f_equal.
    destruct (sub_line_result v l0 Hc) as [[E _]|(i' & p & o & t & _ & E & H2)].
    + congruence.
    + exfalso. apply (Hexcl l x Hx). rewrite <- Hi, E.
      exists i', p, v, t. exact H2.
  - exact Hf.
  - intros v'. rewrite !first_version_decl_findall, Hf. reflexivity.
Qed.

(** C10. When the first version declaration is [version = ] followed by
    two quotes with nothing between them, the transform succeeds with the
    empty string as the version and gives every dependency declaration
    the empty version. *)
Theorem empty_version_accepted data :
  first_version_decl data [] ->
  exists out,
    transform data = inr out
    /\ nth_error (findall versionPattern data) 0 = Some []
    /\ forall i l ident path old tail,
         nth_error (split_lines data) i = Some l ->
         dependency_decl_of l ident path old tail ->
         nth_error (split_lines out) i
         = Some (dependency_line ident path [] ++ tail).
Proof.
  intros Hv. exists (re_sub dependencyPattern (replace []) data).
  split; [apply transform_first_version, Hv|].
  split; [apply first_version_decl_findall, Hv|].
  intros i l ident path old tail Hi Hl.
  rewrite (transform_lines data [] Hv), nth_error_map, Hi. simpl.
  f_equal. apply (sub_line_dependency [] l ident path old tail Hl).
Qed.

(** ** The script in its world *)

Lemma main_run w path data :
  nth_error (argv w) 1 = Some path ->
  files w path = Some data ->
  main w
  = match transform data with
    | inl e => (inl e, w)
    | inr out =>
        if write_denied w path then (inl PermissionError, w)
        else match accepted w path out with
             | (t, true) =>
                 (inr tt, set_file path ([] ++ t) (set_file path [] w))
             | (t, false) =>
                 (inl OSError, set_file path ([] ++ t) (set_file path [] w))
             end
    end.
Proof.
  intros Hp Hf.
  unfold main, transform, bind, sys_argv, getitem, open_r, read, open_w,
    write, ret, raise.
  repeat (first [rewrite Hp | rewrite Hf]; cbv beta iota zeta).
  destruct (nth_error (findall versionPattern data) 0) as [v|];
    [|reflexivity].
  repeat (first [rewrite Hp | rewrite Hf]; cbv beta iota zeta).
  destruct (write_denied w path); [reflexivity|].
  cbn [files set_file]. rewrite String.eqb_refl.
  change (accepted (set_file path [] w) path) with (accepted w path).
  destruct (accepted w path (re_sub dependencyPattern (replace v) data))
    as [t [|]]; reflexivity.
Qed.

Lemma no_version_decl_transform data :
  (forall i l x, nth_error (split_lines data) i = Some l ->
                 ~ version_decl l x) ->
  transform data = inl IndexError.
Proof.
  intros Hnone. unfold transform.
  destruct (nth_error (findall versionPattern data) 0) as [v|] eqn:E;
    [|reflexivity].
  exfalso. apply first_version_decl_findall in E.
  destruct E as (i & (l & Hi & Hl) & _). apply (Hnone i l v Hi Hl).
Qed.

(** C5. Without a line that begins with a version declaration the script
    ends in [IndexError], which is a [LookupError], before anything is
    written: the world, and the file in it, is as it was. *)
Theorem missing_version_fails w path data :
  nth_error (argv w) 1 = Some path ->
  files w path = Some data ->
  (forall i l x, nth_error (split_lines data) i = Some l ->
                 ~ version_decl l x) ->
  main w = (inl IndexError, w)
  /\ is_LookupError IndexError = true
  /\ files (snd (main w)) path = Some data.
Proof.
  intros Hp Hf Hnone.
  rewrite (main_run w path data Hp Hf), (no_version_decl_transform data Hnone).
  simpl. auto.
Qed.


(** ** Sample manifests, evaluated *)

Lemma sample_first_version :
  first_version_decl sample_manifest (str "2.3.1").
Proof.
  exists 0. split.
  - exists (version_line (str "2.3.1")). split; [reflexivity|].
    split; [reflexivity|]. exists []. reflexivity.
  - intros j l x Hj. lia.
Qed.

Lemma not_version_decl_check l :
  versionPattern None l = None -> forall x, ~ version_decl l x.
Proof.
  intros H x Hx. apply version_decl_match in Hx. destruct Hx as (r & Hx).
  congruence.
Qed.

Lemma not_dependency_decl_check l :
  dependencyPattern None l = None -> ~ dependency_decl l.
Proof.
  intros H Hd. apply dependency_decl_match in Hd.
  destruct Hd as (g & r & Hd). congruence.
Qed.

Lemma lines_check (P : text -> Prop) (f : text -> bool) ls :
  (forall l, f l = true -> P l) ->
  forallb f ls = true ->
  forall j l, nth_error ls j = Some l -> P l.
Proof.
  intros Hf Hall j l Hj. apply Hf.
  rewrite forallb_forall in Hall. apply Hall.
  apply nth_error_In with j. exact Hj.
Qed.

Lemma no_version_lines_check data :
  forallb no_version_match (split_lines data) = true ->
  forall i l x, nth_error (split_lines data) i = Some l -> ~ version_decl l x.
Proof.
  intros H i l x Hi.
  apply (lines_check (fun l => forall x, ~ version_decl l x)
           no_version_match (split_lines data)) with (j := i); try assumption.
  intros l' Hl'. apply not_version_decl_check.
  unfold no_version_match in Hl'.
  destruct (versionPattern None l'); [discriminate | reflexivity].
Qed.

Lemma no_dependency_lines_check data :
  forallb no_dependency_match (split_lines data) = true ->
  forall j l, nth_error (split_lines data) j = Some l -> ~ dependency_decl l.
Proof.
  apply lines_check. intros l' Hl'. apply not_dependency_decl_check.
  unfold no_dependency_match in Hl'.
  destruct (dependencyPattern None l'); [discriminate | reflexivity].
Qed.

Lemma dependency_fields_preserved_sample :
  exists out l',
    transform sample_manifest = inr out
    /\ nth_error (split_lines out) 1 = Some l'
    /\ dependency_decl_of l' (str "foo") (str "../foo") (str "2.3.1") [].
Proof.
  apply (dependency_fields_preserved sample_manifest (str "2.3.1") 1
           (dependency_line (str "foo") (str "../foo") (str "2.3.0"))
           (str "foo") (str "../foo") (str "2.3.0") []).
  - exact sample_first_version.
  - reflexivity.
  - repeat split; reflexivity.
Defined.

Lemma transform_idempotent_sample :
  transform sample_manifest = inr sample_rewritten
  /\ transform sample_rewritten = inr sample_rewritten.
Proof.
  split; [reflexivity|].
  apply (transform_idempotent sample_manifest sample_rewritten).
  reflexivity.
Defined.

Lemma canonical_version_first_sample :
  nth_error (findall versionPattern sample_manifest) 0 = Some (str "2.3.1")
  /\ transform sample_plain
     = inr (re_sub dependencyPattern (replace (str "0.1.0")) sample_plain).
Proof.
  split.
  - apply (proj1 (canonical_version_first sample_manifest (str "2.3.1"))).
    exact sample_first_version.
  - apply (proj2 (canonical_version_first sample_plain (str "0.1.0"))).
    exists 1. split.
    + exists (version_line (str "0.1.0") ++ str " # release").
      split; [reflexivity|]. split; [reflexivity|].
      exists (str " # release"). reflexivity.
    + intros j l x Hj Hl.
      destruct j as [|[|[|j]]]; simpl in Hl.
      * injection Hl as <-. apply not_version_decl_check. reflexivity.
      * lia.
      * injection Hl as <-. apply not_version_decl_check. reflexivity.
      * destruct j; discriminate.
Defined.

Lemma other_lines_untouched_sample :
  length (split_lines sample_rewritten) = length (split_lines sample_manifest)
  /\ nth_error (split_lines sample_rewritten) 3
     = Some (str "unrelated_line = true").
Proof.
  apply (other_lines_untouched sample_manifest sample_rewritten 3).
  - reflexivity.
  - reflexivity.
  - apply not_dependency_decl_check. reflexivity.
Defined.

Lemma missing_version_fails_sample :
  main (sample_world "Cargo.toml" sample_unversioned)
  = (inl IndexError, sample_world "Cargo.toml" sample_unversioned)
  /\ is_LookupError IndexError = true
  /\ files (snd (main (sample_world "Cargo.toml" sample_unversioned)))
           "Cargo.toml"%string
     = Some sample_unversioned.
Proof.
  apply (missing_version_fails
           (sample_world "Cargo.toml" sample_unversioned)
           "Cargo.toml"%string sample_unversioned).
  - reflexivity.
  - reflexivity.
  - apply no_version_lines_check. reflexivity.
Defined.

Lemma no_dependency_identity_sample :
  transform sample_plain = inr sample_plain.
Proof.
  apply (no_dependency_identity sample_plain 1
           (version_line (str "0.1.0") ++ str " # release") (str "0.1.0")).
  - reflexivity.
  - split; [reflexivity|]. exists (str " # release"). reflexivity.
  - apply no_dependency_lines_check. reflexivity.
Defined.


Lemma trailing_characters_kept_sample :
  exists out,
    transform sample_manifest = inr out
    /\ nth_error (split_lines out) 2
       = Some (dependency_line (str "bar") (str "./bar") (str "2.3.1")
               ++ str " # local").
Proof.
  apply (trailing_characters_kept sample_manifest (str "2.3.1") 2
           (str "bar") (str "./bar") (str "2.3.0") (str " # local")).
  - exact sample_first_version.
  - discriminate.
  - reflexivity.
  - reflexivity.
  - reflexivity.
  - reflexivity.
Defined.

Lemma version_declarations_invariant_sample :
  findall versionPattern sample_rewritten
  = findall versionPattern sample_manifest.
Proof.
  apply (version_declarations_invariant sample_manifest sample_rewritten).
  reflexivity.
Defined.

Lemma empty_version_accepted_sample :
  exists out,
    transform sample_empty_version = inr out
    /\ nth_error (findall versionPattern sample_empty_version) 0 = Some []
    /\ forall i l ident path old tail,
         nth_error (split_lines sample_empty_version) i = Some l ->
         dependency_decl_of l ident path old tail ->
         nth_error (split_lines out) i
         = Some (dependency_line ident path [] ++ tail).
Proof.
  apply (empty_version_accepted sample_empty_version).
  exists 0. split.
  - exists (version_line []). split; [reflexivity|].
    split; [reflexivity|]. exists []. reflexivity.
  - intros j l x Hj. lia.
Defined.

(** ** Further properties of the script *)

Lemma main_no_arg w :
  nth_error (argv w) 1 = None -> main w = (inl IndexError, w).
Proof.
  intros H. unfold main, bind, sys_argv, getitem. rewrite H. reflexivity.
Qed.

Lemma main_no_file w path :
  nth_error (argv w) 1 = Some path -> files w path = None ->
  main w = (inl FileNotFoundError, w).
Proof.
  intros Hp Hf. unfold main, bind, sys_argv, getitem, open_r, ret.
  rewrite Hp. cbv beta iota. rewrite Hf. reflexivity.
Qed.

Lemma dependency_decl_of_unique l i p v t i' p' v' t' :
  dependency_decl_of l i p v t -> dependency_decl_of l i' p' v' t' ->
  i = i' /\ p = p' /\ v = v' /\ t = t'.
Proof.
  intros H H'. apply dependency_decl_of_match in H, H'.
  rewrite H in H'. injection H' as -> -> -> ->. auto.
Qed.

Lemma first_version_decl_unique data v v' :
  first_version_decl data v -> first_version_decl data v' -> v = v'.
Proof.
  intros H H'. apply first_version_decl_findall in H, H'. congruence.
Qed.

(** The lines of the rewritten text that begin with a dependency
    declaration all carry the version [v]. *)
Lemma sub_lines_in_sync data v i l ident path ver tail :
  first_version_decl data v ->
  nth_error (split_lines (re_sub dependencyPattern (replace v) data)) i
  = Some l ->
  dependency_decl_of l ident path ver tail ->
  ver = v.
Proof.
  intros Hv Hi Hl.
  pose proof (first_version_decl_class data v Hv) as Hc.
  rewrite (transform_lines data v Hv), nth_error_map in Hi.
  destruct (nth_error (split_lines data) i) as [l0|]; [|discriminate].
  simpl in Hi. injection Hi as Hi.
  destruct (sub_line_result v l0 Hc) as [[E Hn]|(i' & p & o & t & _ & E & H2)].
  - exfalso. apply Hn. rewrite <- E, Hi. exists ident, path, ver, tail.
    exact Hl.
  - rewrite E in Hi. subst l.
    destruct (dependency_decl_of_unique _ _ _ _ _ _ _ _ _ Hl H2)
      as (_ & _ & Hver & _).
    exact Hver.
Qed.

(** A text whose dependency declarations carry [v] already is left as it
    is by the substitution. *)
Lemma sub_in_sync_fixed data v :
  (forall i l ident path ver tail,
     nth_error (split_lines data) i = Some l ->
     dependency_decl_of l ident path ver tail -> ver = v) ->
  re_sub dependencyPattern (replace v) data = data.
Proof.
  intros Hsync. rewrite sub_dependency_by_lines.
  rewrite <- (join_split_lines data) at 2. f_equal.
  rewrite <- (map_id (split_lines data)) at 2.
  apply map_ext_in. intros l Hin.
  apply In_nth_error in Hin. destruct Hin as (j & Hj).
  unfold sub_line.
  destruct (dependencyPattern None l) as [[[i p o] r]|] eqn:E;
    [|reflexivity].
  pose proof E as E0. apply dependency_decl_of_match in E0.
  rewrite (Hsync j l i p o r Hj E0) in E0.
  destruct E0 as (_ & _ & _ & ->). reflexivity.
Qed.

(** X1. Started without a file argument, the script ends in [IndexError]
    at [sys.argv[1]] and touches nothing. *)
Theorem missing_argument_fails w :
  length (argv w) < 2 -> main w = (inl IndexError, w).
Proof.
  intros H. apply main_no_arg. apply nth_error_None. lia.
Qed.

(** X2. When the named file does not exist the script ends in
    [FileNotFoundError], an [OSError], at [open] for reading; the file is
    not created and nothing else changes. *)
Theorem missing_file_fails w path :
  nth_error (argv w) 1 = Some path ->
  files w path = None ->
  main w = (inl FileNotFoundError, w)
  /\ is_OSError FileNotFoundError = true
  /\ files (snd (main w)) path = None.
Proof.
  intros Hp Hf. rewrite (main_no_file w path Hp Hf). simpl. auto.
Qed.

Lemma accepted_all w path out :
  write_room w path = None \/
  (exists room, write_room w path = Some room /\ length out <= room) ->
  accepted w path out = (out, true).
Proof.
  unfold accepted. intros [->|(room & -> & H)]; [reflexivity|].
  apply Nat.leb_le in H. rewrite H. reflexivity.
Qed.


(** X3. A run that may open the named file for writing and has room for
    the rewritten text returns normally, leaves the rewritten text in
    that file and changes no other file and no argument. *)
Theorem successful_run_frame w path data out :
  nth_error (argv w) 1 = Some path ->
  files w path = Some data ->
  transform data = inr out ->
  write_denied w path = false ->
  write_room w path = None \/
  (exists room, write_room w path = Some room /\ length out <= room) ->
  fst (main w) = inr tt
  /\ argv (snd (main w)) = argv w
  /\ files (snd (main w)) path = Some out
  /\ forall p, p <> path -> files (snd (main w)) p = files w p.
Proof.
  intros Hp Hf Ht Hd Hr.
  rewrite (main_run w path data Hp Hf), Ht, Hd, (accepted_all w path out Hr).
  cbn [fst snd argv files set_file app]. rewrite String.eqb_refl.
  repeat split. intros p Hne. apply String.eqb_neq in Hne.
  rewrite Hne. reflexivity.
Qed.


(** X5. The transform succeeds exactly on the texts in which some line
    begins with a version declaration. *)
Theorem transform_succeeds_iff data :
  (exists out, transform data = inr out) <->
  exists i l x, nth_error (split_lines data) i = Some l /\ version_decl l x.
Proof.
  split.
  - intros (out & H). apply transform_inr in H.
    destruct H as (v & (i & (l & Hi & Hl) & _) & _). eauto.
  - intros (i & l & x & Hi & Hl).
    destruct (some_version_decl_first data i l x Hi Hl) as (v & Hv).
    rewrite (transform_first_version data v Hv). eauto.
Qed.

(** X6. In the output of the transform every line that begins with a
    dependency declaration carries the canonical version. *)
Theorem output_in_sync data out v i l ident path ver tail :
  transform data = inr out ->
  first_version_decl data v ->
  nth_error (split_lines out) i = Some l ->
  dependency_decl_of l ident path ver tail ->
  ver = v.
Proof.
  intros Ht Hv Hi Hl. apply transform_inr in Ht.
  destruct Ht as (v' & Hv' & ->).
  rewrite (first_version_decl_unique data v v' Hv Hv').
  apply (sub_lines_in_sync data v' i l ident path ver tail Hv' Hi Hl).
Qed.

(** X7. The transform returns its input unchanged exactly when every
    dependency declaration of the input carries the canonical version
    already. *)
Theorem fixed_iff_in_sync data v :
  first_version_decl data v ->
  (transform data = inr data <->
   forall i l ident path ver tail,
     nth_error (split_lines data) i = Some l ->
     dependency_decl_of l ident path ver tail -> ver = v).
Proof.
  intros Hv. rewrite (transform_first_version data v Hv). split.
  - intros H i l ident path ver tail Hi Hl.
    injection H as H. rewrite <- H in Hi.
    apply (sub_lines_in_sync data v i l ident path ver tail Hv Hi Hl).
  - intros Hsync. f_equal. apply sub_in_sync_fixed, Hsync.
Qed.

(** ** Further properties of the patterns and of the scan *)

Lemma split_lines_app_newline a b :
  split_lines (a ++ newline :: b) = split_lines a ++ split_lines b.
Proof.
  induction a as [|c a IH]; [reflexivity|]. simpl.
  destruct (is_newline c); rewrite IH; [reflexivity|].
  pose proof (split_lines_not_nil a).
  destruct (split_lines a); [contradiction | reflexivity].
Qed.

Lemma join_lines_app la lb :
  la <> [] -> lb <> [] ->
  join_lines (la ++ lb) = join_lines la ++ newline :: join_lines lb.
Proof.
  intros Ha Hb. induction la as [|l la IH]; [contradiction|].
  destruct la as [|l2 la].
  - destruct lb; [contradiction | reflexivity].
  - change (join_lines ((l :: l2 :: la) ++ lb))
      with (l ++ newline :: join_lines ((l2 :: la) ++ lb)).
    rewrite IH by discriminate.
    change (join_lines (l :: l2 :: la))
      with (l ++ newline :: join_lines (l2 :: la)).
    rewrite <- app_assoc. reflexivity.
Qed.

(** X8. [findall] with the version pattern returns the values of the
    lines that begin with a version declaration, and nothing else. *)
Theorem findall_version_values data x :
  In x (findall versionPattern data) <->
  exists i l, nth_error (split_lines data) i = Some l /\ version_decl l x.
Proof.
  rewrite findall_version_by_lines, in_flat_map. split.
  - intros (l & Hin & Hx). apply In_nth_error in Hin.
    destruct Hin as (i & Hi). exists i, l. split; [exact Hi|].
    apply version_decl_match. unfold line_group in Hx.
    destruct (versionPattern None l) as [[g r]|]; [|contradiction].
    destruct Hx as [<-|[]]. eauto.
  - intros (i & l & Hi & Hl). exists l. split.
    + apply nth_error_In with i. exact Hi.
    + apply line_group_version_decl in Hl. destruct Hl as (bs & ->).
      left. reflexivity.
Qed.

(** X9. The dependency pattern matches at a position exactly when the
    position starts a line and the text there is an identifier, a path
    and a version of the three classes between the fixed pieces; the
    groups are these three, and the match ends after the brace. *)
Theorem dependencyPattern_matches prev s ident path version rest :
  dependencyPattern prev s = Some (DepGroups ident path version, rest) <->
  at_bol prev /\ dependency_decl_of s ident path version rest.
Proof.
  rewrite dependency_decl_of_match.
  destruct prev as [c|]; simpl at_bol.
  - rewrite dependencyPattern_prev.
    destruct (is_newline c); split;
      [intros H; auto | intros [_ H]; exact H
       | discriminate | intros [H _]; discriminate].
  - split; [auto | intros [_ H]; exact H].
Qed.

(** X10. The version pattern matches at a position exactly when the
    position starts a line and the text there is a version declaration
    whose value is of the version class; the group is that value. *)
Theorem versionPattern_matches prev s value rest :
  versionPattern prev s = Some (value, rest) <->
  at_bol prev /\ forallb version_class value = true
  /\ s = version_line value ++ rest.
Proof.
  rewrite <- versionPattern_spec.
  destruct prev as [c|]; simpl at_bol.
  - rewrite versionPattern_prev.
    destruct (is_newline c); split;
      [intros H; auto | intros [_ H]; exact H
       | discriminate | intros [H _]; discriminate].
  - split; [auto | intros [_ H]; exact H].
Qed.

(** X11. The substitution works line by line: on two texts joined by a
    newline it is the substitution on each, joined by a newline. *)
Theorem re_sub_newline_compose v a b :
  re_sub dependencyPattern (replace v) (a ++ newline :: b)
  = re_sub dependencyPattern (replace v) a
    ++ newline :: re_sub dependencyPattern (replace v) b.
Proof.
  rewrite !sub_dependency_by_lines, split_lines_app_newline, map_app.
  apply join_lines_app.
  - pose proof (split_lines_not_nil a).
    destruct (split_lines a); [contradiction | discriminate].
  - pose proof (split_lines_not_nil b).
    destruct (split_lines b); [contradiction | discriminate].
Qed.

(** X12. What [findall] finds in two texts joined by a newline is what
    it finds in the first followed by what it finds in the second. *)
Theorem findall_newline_compose a b :
  findall versionPattern (a ++ newline :: b)
  = findall versionPattern a ++ findall versionPattern b.
Proof.
  rewrite !findall_version_by_lines, split_lines_app_newline.
  apply flat_map_app.
Qed.

(** X13. A line whose leading name has a character outside the
    identifier class before any space, a hyphen say, is not taken for a
    dependency declaration: the transform passes it on unchanged. *)
Theorem foreign_identifier_skipped data out i name rest :
  transform data = inr out ->
  nth_error (split_lines data) i = Some (name ++ rest) ->
  forallb ident_class name = false ->
  ~ In " "%char name ->
  dependencyPattern None (name ++ rest) = None
  /\ nth_error (split_lines out) i = Some (name ++ rest).
Proof.
  intros Ht Hi Hcls Hsp.
  assert (dependencyPattern None (name ++ rest) = None) as Hnone.
  { destruct (dependencyPattern None (name ++ rest)) as [[g r]|] eqn:E;
      [|reflexivity].
    exfalso. apply dependencyPattern_spec in E. destruct E as (Hok & E).
    apply dep_groups_ok_inv in Hok. destruct Hok as (H1 & _ & _).
    unfold dep_body in E. rewrite dependency_line_lits in E.
    repeat rewrite <- app_assoc in E.
    revert E H1 Hcls Hsp. generalize (group1 g).
    clear. intros g1. revert g1.
    induction name as [|c name IH]; intros g1 E H1 Hcls Hsp;
      [discriminate|].
    destruct g1 as [|d g1].
    - simpl in E. injection E as E _. apply Hsp. left. exact E.
    - simpl in E. injection E as -> E. simpl in H1, Hcls.
      apply andb_prop in H1. destruct H1 as [Hd H1]. rewrite Hd in Hcls.
      apply (IH g1 E H1 Hcls). intros Hin. apply Hsp. right. exact Hin. }
  split; [exact Hnone|].
  apply transform_inr in Ht. destruct Ht as (v & Hv & ->).
  rewrite (transform_lines data v Hv), nth_error_map, Hi. simpl.
  unfold sub_line. rewrite Hnone. reflexivity.
Qed.

(** X14. A version value with a character outside the version class, a
    hyphen say, is not recognised, at whatever position the pattern is
    tried: the line does not declare a version. *)
Theorem foreign_version_unrecognised prev value tail :
  forallb version_class value = false ->
  ~ In dquote value ->
  versionPattern prev (version_line value ++ tail) = None
  /\ forall x, ~ version_decl (version_line value ++ tail) x.
Proof.
  intros Hcls Hq.
  assert (versionPattern None (version_line value ++ tail) = None) as Hnone.
  { destruct (versionPattern None (version_line value ++ tail))
      as [[g r]|] eqn:E; [|reflexivity].
    exfalso. apply versionPattern_spec in E. destruct E as (Hg & E).
    rewrite !version_line_lits in E. repeat rewrite <- app_assoc in E.
    apply app_inv_head in E.
    revert g Hg E Hcls Hq. clear. induction value as [|c value IH];
      intros g Hg E Hcls Hq; [discriminate|].
    destruct g as [|d g].
    - simpl in E. injection E as E _. apply Hq. left. exact E.
    - simpl in E. injection E as <- E. simpl in Hg, Hcls.
      apply andb_prop in Hg. destruct Hg as [Hc Hg]. rewrite Hc in Hcls.
      apply (IH g Hg E Hcls). intros Hin. apply Hq. right. exact Hin. }
  split.
  - destruct prev as [c|]; [|exact Hnone].
    rewrite versionPattern_prev, Hnone. destruct (is_newline c); reflexivity.
  - intros x Hx. apply version_decl_match in Hx. destruct Hx as (r & Hx).
    congruence.
Qed.

(** X15. A match of the dependency pattern lies within one line and is
    thirty characters longer than its three groups together. *)
Theorem dependency_match_extent prev s g rest :
  dependencyPattern prev s = Some (g, rest) ->
  exists m,
    s = m ++ rest
    /\ no_newline m = true
    /\ length m
       = length (group1 g) + length (group2 g) + length (group3 g) + 30.
Proof.
  intros H.
  assert (dependencyPattern None s = Some (g, rest)) as H0.
  { destruct prev as [c|]; [|exact H].
    rewrite dependencyPattern_prev in H.
    destruct (is_newline c); [exact H | discriminate]. }
  apply dependencyPattern_spec in H0. destruct H0 as (Hok & ->).
  exists (dep_body g). split; [reflexivity|].
  split; [apply dep_body_no_newline, Hok|].
  unfold dep_body. rewrite dependency_line_lits.
  repeat rewrite length_app. simpl. lia.
Qed.


(** ** The further properties at sample manifests *)

Lemma sample_rewritten_first_version :
  first_version_decl sample_rewritten (str "2.3.1").
Proof.
  exists 0. split.
  - exists (version_line (str "2.3.1")). split; [reflexivity|].
    split; [reflexivity|]. exists []. reflexivity.
  - intros j l x Hj. lia.
Qed.

Lemma missing_argument_fails_sample :
  main sample_bare_world = (inl IndexError, sample_bare_world).
Proof.
  apply (missing_argument_fails sample_bare_world). simpl. lia.
Defined.

Lemma missing_file_fails_sample :
  main sample_absent_world = (inl FileNotFoundError, sample_absent_world)
  /\ is_OSError FileNotFoundError = true
  /\ files (snd (main sample_absent_world)) "Cargo.toml"%string = None.
Proof.
  apply (missing_file_fails sample_absent_world "Cargo.toml"%string);
    reflexivity.
Defined.

Lemma successful_run_frame_sample :
  fst (main (sample_full_world "Cargo.toml" sample_manifest 200)) = inr tt
  /\ argv (snd (main (sample_full_world "Cargo.toml" sample_manifest 200)))
     = argv (sample_full_world "Cargo.toml" sample_manifest 200)
  /\ files (snd (main (sample_full_world "Cargo.toml" sample_manifest 200)))
           "Cargo.toml"%string
     = Some sample_rewritten
  /\ forall p, p <> "Cargo.toml"%string ->
       files (snd (main (sample_full_world "Cargo.toml" sample_manifest 200)))
             p
       = files (sample_full_world "Cargo.toml" sample_manifest 200) p.
Proof.
  apply (successful_run_frame
           (sample_full_world "Cargo.toml" sample_manifest 200)
           "Cargo.toml"%string sample_manifest sample_rewritten).
  - reflexivity.
  - reflexivity.
  - reflexivity.
  - reflexivity.
  - right. exists 200. split; [reflexivity|]. vm_compute. lia.
Defined.


Lemma output_in_sync_sample : str "2.3.1" = str "2.3.1".
Proof.
  apply (output_in_sync sample_manifest sample_rewritten (str "2.3.1") 2
           (dependency_line (str "bar") (str "./bar") (str "2.3.1")
            ++ str " # local")
           (str "bar") (str "./bar") (str "2.3.1") (str " # local")).
  - reflexivity.
  - exact sample_first_version.
  - reflexivity.
  - repeat split; reflexivity.
Defined.

Lemma fixed_iff_in_sync_sample :
  transform sample_rewritten = inr sample_rewritten <->
  forall i l ident path ver tail,
    nth_error (split_lines sample_rewritten) i = Some l ->
    dependency_decl_of l ident path ver tail -> ver = str "2.3.1".
Proof.
  apply (fixed_iff_in_sync sample_rewritten (str "2.3.1")).
  exact sample_rewritten_first_version.
Defined.

Lemma foreign_identifier_skipped_sample :
  dependencyPattern None
    (dependency_line (str "unreal-asset") (str "../asset") (str "0.9.0"))
  = None
  /\ nth_error (split_lines sample_hyphenated) 1
     = Some (dependency_line (str "unreal-asset") (str "../asset")
               (str "0.9.0")).
Proof.
  apply (foreign_identifier_skipped sample_hyphenated sample_hyphenated 1
           (str "unreal-asset")).
  - reflexivity.
  - reflexivity.
  - reflexivity.
  - simpl. intros H. repeat (destruct H as [H|H]; [discriminate|]).
    exact H.
Defined.

Lemma foreign_version_unrecognised_sample :
  versionPattern None (version_line (str "1.0.0-rc1") ++ []) = None
  /\ forall x, ~ version_decl (version_line (str "1.0.0-rc1") ++ []) x.
Proof.
  apply (foreign_version_unrecognised None (str "1.0.0-rc1") []).
  - reflexivity.
  - simpl. intros H. repeat (destruct H as [H|H]; [discriminate|]).
    exact H.
Defined.

Lemma dependency_match_extent_sample :
  exists m,
    dependency_line (str "foo") (str "../foo") (str "2.3.0") ++ str " # c"
    = m ++ str " # c"
    /\ no_newline m = true
    /\ length m = 3 + 6 + 5 + 30.
Proof.
  apply (dependency_match_extent None
           (dependency_line (str "foo") (str "../foo") (str "2.3.0")
            ++ str " # c")
           (DepGroups (str "foo") (str "../foo") (str "2.3.0")) (str " # c")).
  reflexivity.
Defined.

